(** * The advocates page: search filter and record store

    A shallow embedding of [src/app/page.tsx], the one component of the
    repository.  The sources hold two revisions of that file:

    - the revision with the case-normalising filter, a [searchTerm] state
      cell and a [try]/[catch] around the fetch (top level of this file);
    - the older revision, whose filter calls [includes] on the raw fields
      (module [Legacy]).

    JavaScript strings are modelled as [string] over ASCII characters, and
    the [number] in [yearsOfExperience] as an integer [Z] printed in
    decimal (what [Number.prototype.toString] yields on safe integers).
    React state is threaded explicitly: a handler maps the state before the
    event to the state after it.  The table markup is not modelled. *)

From Stdlib Require Import ZArith Ascii DecimalString DecimalZ.
From stdpp Require Import base list strings.

Local Open Scope bool_scope.

(** ** Run-time results *)

(** A JavaScript evaluation either returns a value or throws.  The only
    exception the modelled code can raise by itself is a [TypeError]
    (calling a method that does not exist, reading through [undefined]). *)
Inductive result (A : Type) : Type :=
| Ok (a : A)
| TypeError.
Arguments Ok {A} a.
Arguments TypeError {A}.

#[export] Instance result_bind : MBind result := fun _ _ k r =>
  match r with
  | Ok a => k a
  | TypeError => TypeError
  end.

(** [e1 || e2] of JavaScript: [e2] is evaluated only when [e1] is false. *)
Definition orElse (r1 r2 : result bool) : result bool :=
  match r1 with
  | Ok true => Ok true
  | Ok false => r2
  | TypeError => TypeError
  end.

Infix "|||" := orElse (at level 50, left associativity).

(** [Array.prototype.filter] with a callback that may throw: the callback is
    run on every element in order and the first exception aborts the call. *)
Fixpoint filterM {A} (f : A -> result bool) (l : list A) : result (list A) :=
  match l with
  | [] => Ok []
  | x :: xs =>
      keep ← f x;
      rest ← filterM f xs;
      Ok (if keep : bool then x :: rest else rest)
  end.

(** ** Strings *)

Module Js.

Definition isUpper (c : ascii) : bool :=
  let n := N_of_ascii c in (65 <=? n)%N && (n <=? 90)%N.

Definition isLower (c : ascii) : bool :=
  let n := N_of_ascii c in (97 <=? n)%N && (n <=? 122)%N.

Definition isDigit (c : ascii) : bool :=
  let n := N_of_ascii c in (48 <=? n)%N && (n <=? 57)%N.

Definition lowerChar (c : ascii) : ascii :=
  if isUpper c then ascii_of_N (N_of_ascii c + 32) else c.

Definition upperChar (c : ascii) : ascii :=
  if isLower c then ascii_of_N (N_of_ascii c - 32) else c.

Fixpoint mapChars (f : ascii -> ascii) (s : string) : string :=
  match s with
  | EmptyString => EmptyString
  | String c s' => String (f c) (mapChars f s')
  end.

(** [String.prototype.toLowerCase] and [toUpperCase] on ASCII text: the
    letters A-Z and a-z are folded, every other character is left alone.
    This is what the JavaScript functions do on strings of ASCII
    characters; it does not describe them on other text. *)
Definition toLowerCase (s : string) : string := mapChars lowerChar s.
Definition toUpperCase (s : string) : string := mapChars upperChar s.

(** [s.startsWith(t)]. *)
Fixpoint startsWith (s t : string) {struct t} : bool :=
  match t, s with
  | EmptyString, _ => true
  | String _ _, EmptyString => false
  | String b t', String a s' => if Ascii.eqb a b then startsWith s' t' else false
  end.

(** [String.prototype.includes]: [t] occurs in [s] at some position. *)
Fixpoint includes (s t : string) : bool :=
  startsWith s t ||
  match s with
  | EmptyString => false
  | String _ s' => includes s' t
  end.

(** [Number.prototype.toString] on an integer: its decimal digits, with a
    minus sign when negative.  This is what JavaScript prints for the safe
    integers (magnitude at most 2^53 - 1); it does not describe the exponent
    form of larger numbers. *)
Definition numberToString (n : Z) : string :=
  NilEmpty.string_of_int (Z.to_int n).

Definition isLetter (c : ascii) : bool := isUpper c || isLower c.

(** The characters of a printed integer: digits and the minus sign. *)
Definition isNumberChar (c : ascii) : bool :=
  isDigit c || (N_of_ascii c =? 45)%N.

(** Space, tab, line feed, vertical tab, form feed, carriage return. *)
Definition isWhitespace (c : ascii) : bool :=
  let n := N_of_ascii c in (n =? 32)%N || ((9 <=? n)%N && (n <=? 13)%N).

Definition isEmpty (s : string) : bool :=
  match s with
  | EmptyString => true
  | String _ _ => false
  end.

(** Every character of [s] satisfies [p]. *)
Fixpoint allChars (p : ascii -> bool) (s : string) : bool :=
  match s with
  | EmptyString => true
  | String c s' => p c && allChars p s'
  end.

End Js.

(** The specification's reading of "contains as a substring". *)
Definition Contains (s t : string) : Prop :=
  exists pre post : string, s = pre +:+ t +:+ post.

(** ** Data model *)

(** [type Advocate]. [id] and [createdAt] are optional; a [Date] is kept as
    its time value. *)
Record Advocate : Type := mkAdvocate {
  id : option Z;
  firstName : string;
  lastName : string;
  city : string;
  degree : string;
  specialties : list string;
  yearsOfExperience : Z;
  phoneNumber : Z;
  createdAt : option Z
}.

(** ** The filter of [onChange] (current revision) *)

(** The callback handed to [advocates.filter]. *)
Definition advocateMatches (value : string) (advocate : Advocate) : bool :=
  let lowerSearchTerm := Js.toLowerCase value in
  Js.includes (Js.toLowerCase (firstName advocate)) lowerSearchTerm
  || Js.includes (Js.toLowerCase (lastName advocate)) lowerSearchTerm
  || Js.includes (Js.toLowerCase (city advocate)) lowerSearchTerm
  || Js.includes (Js.toLowerCase (degree advocate)) lowerSearchTerm
  || existsb (fun specialty => Js.includes (Js.toLowerCase specialty) lowerSearchTerm)
       (specialties advocate)
  || Js.includes (Js.numberToString (yearsOfExperience advocate)) value.

(** [advocates.filter((advocate) => ...)]. *)
Definition filterAdvocates (advocates : list Advocate) (value : string) : list Advocate :=
  List.filter (advocateMatches value) advocates.

(** ** Records as they arrive at run time *)

(** The fetched JSON is not validated, so at run time a record may lack a
    field the type declares.  [RawAdvocate] keeps the six fields the filter
    reads, each either present with its declared type or [None] for
    [undefined]. *)
Record RawAdvocate : Type := mkRawAdvocate {
  rawFirstName : option string;
  rawLastName : option string;
  rawCity : option string;
  rawDegree : option string;
  rawSpecialties : option (list string);
  rawYearsOfExperience : option Z
}.

(** A record that respects [type Advocate], seen at run time. *)
Definition toRaw (advocate : Advocate) : RawAdvocate :=
  {| rawFirstName := Some (firstName advocate);
     rawLastName := Some (lastName advocate);
     rawCity := Some (city advocate);
     rawDegree := Some (degree advocate);
     rawSpecialties := Some (specialties advocate);
     rawYearsOfExperience := Some (yearsOfExperience advocate) |}.

(** [field.toLowerCase().includes(lowerSearchTerm)]: reading a method of
    [undefined] throws. *)
Definition lowerFieldIncludes (field : option string) (lowerSearchTerm : string)
  : result bool :=
  match field with
  | Some s => Ok (Js.includes (Js.toLowerCase s) lowerSearchTerm)
  | None => TypeError
  end.

(** The same callback as [advocateMatches], on a run-time record. *)
Definition advocateMatchesRaw (value : string) (advocate : RawAdvocate) : result bool :=
  let lowerSearchTerm := Js.toLowerCase value in
  lowerFieldIncludes (rawFirstName advocate) lowerSearchTerm
  ||| lowerFieldIncludes (rawLastName advocate) lowerSearchTerm
  ||| lowerFieldIncludes (rawCity advocate) lowerSearchTerm
  ||| lowerFieldIncludes (rawDegree advocate) lowerSearchTerm
  ||| match rawSpecialties advocate with
      | Some l =>
          Ok (existsb (fun specialty => Js.includes (Js.toLowerCase specialty) lowerSearchTerm) l)
      | None => TypeError
      end
  ||| match rawYearsOfExperience advocate with
      | Some n => Ok (Js.includes (Js.numberToString n) value)
      | None => TypeError
      end.

Definition filterRaw (advocates : list RawAdvocate) (value : string)
  : result (list RawAdvocate) :=
  filterM (advocateMatchesRaw value) advocates.

(** ** Component state *)

(** What a [useState<Advocate[]>] cell holds: an array, or [None] when a
    setter was handed [undefined]. *)
Definition cell : Type := option (list Advocate).

(** The records a cell shows. *)
Definition records (c : cell) : list Advocate := default [] c.

(** What a failed fetch is caught with. *)
Inductive failure : Type :=
| NetworkError          (* [fetch] rejects *)
| InvalidJson           (* [response.json()] rejects *)
| NullResponse.         (* [jsonResponse.data] read through [null] *)

Inductive entry : Type :=
| Log (msg : string)
| LogAdvocates (c : cell)
| LogError (msg : string) (error : failure).

(** The value [response.json()] resolves to: [null], or an object whose
    [data] property is an array of records or is absent. *)
Inductive payload : Type :=
| JsonNull
| JsonObject (data : cell).

(** How the request of the effect ends. *)
Inductive response : Type :=
| FetchRejected
| BodyRejected
| Body (jsonResponse : payload).

(** How an event handler ends. *)
Inductive completion : Type :=
| Returned
| Threw.

Record State : Type := mkState {
  advocates : cell;
  filteredAdvocates : cell;
  searchTerm : string;
  console : list entry
}.

Definition setAdvocates (c : cell) (st : State) : State :=
  {| advocates := c; filteredAdvocates := filteredAdvocates st;
     searchTerm := searchTerm st; console := console st |}.

Definition setFilteredAdvocates (c : cell) (st : State) : State :=
  {| advocates := advocates st; filteredAdvocates := c;
     searchTerm := searchTerm st; console := console st |}.

Definition setSearchTerm (value : string) (st : State) : State :=
  {| advocates := advocates st; filteredAdvocates := filteredAdvocates st;
     searchTerm := value; console := console st |}.

Definition consoleWrite (e : entry) (st : State) : State :=
  {| advocates := advocates st; filteredAdvocates := filteredAdvocates st;
     searchTerm := searchTerm st; console := console st ++ [e] |}.

(** The three [useState] initial values. *)
Definition initialState : State :=
  {| advocates := Some []; filteredAdvocates := Some [];
     searchTerm := ""; console := [] |}.

(** [fetchAdvocates] of the mount effect: everything that throws inside the
    [try] block is caught and written to the console. *)
Definition fetchAdvocates (r : response) (st : State) : State :=
  let st := consoleWrite (Log "fetching advocates...") st in
  match r with
  | FetchRejected => consoleWrite (LogError "Failed to fetch advocates:" NetworkError) st
  | BodyRejected => consoleWrite (LogError "Failed to fetch advocates:" InvalidJson) st
  | Body JsonNull => consoleWrite (LogError "Failed to fetch advocates:" NullResponse) st
  | Body (JsonObject data) => setFilteredAdvocates data (setAdvocates data st)
  end.

(** [onChange]: [advocates.filter] throws when the cell holds [undefined];
    the search term was set before that. *)
Definition onChange (value : string) (st : State) : State * completion :=
  let st := setSearchTerm value st in
  let st := consoleWrite (Log "filtering advocates...") st in
  match advocates st with
  | Some l => (setFilteredAdvocates (Some (filterAdvocates l value)) st, Returned)
  | None => (st, Threw)
  end.

(** [onClick] of the reset button. *)
Definition onClick (st : State) : State :=
  let st := consoleWrite (LogAdvocates (advocates st)) st in
  let st := setSearchTerm "" st in
  setFilteredAdvocates (advocates st) st.

Inductive event : Type :=
| Fetched (r : response)
| Change (value : string)
| Reset.

Definition handle (e : event) (st : State) : State :=
  match e with
  | Fetched r => fetchAdvocates r st
  | Change value => fst (onChange value st)
  | Reset => onClick st
  end.

Definition run (events : list event) (st : State) : State :=
  fold_left (fun st e => handle e st) events st.

(** Every record on display is a record of the full list. *)
Definition displaySubset (st : State) : Prop :=
  forall a : Advocate, a ∈ records (filteredAdvocates st) -> a ∈ records (advocates st).

(** ** The older revision *)

Module Legacy.

(** The callback of the older [onChange]: raw, case-sensitive [includes]
    on the four text fields, [Array.prototype.includes] (element equality)
    on [specialties], and [includes] called on the number
    [yearsOfExperience], which has no such method: reaching that last
    disjunct throws. *)
Definition advocateMatches (searchTerm : string) (advocate : Advocate) : result bool :=
  Ok (Js.includes (firstName advocate) searchTerm)
  ||| Ok (Js.includes (lastName advocate) searchTerm)
  ||| Ok (Js.includes (city advocate) searchTerm)
  ||| Ok (Js.includes (degree advocate) searchTerm)
  ||| Ok (existsb (String.eqb searchTerm) (specialties advocate))
  ||| TypeError.

Definition filterAdvocates (advocates : list Advocate) (searchTerm : string)
  : result (list Advocate) :=
  filterM (advocateMatches searchTerm) advocates.

(** This revision has no [searchTerm] state: the term is shown by writing
    the [innerHTML] of the [search-term] span.  [searchTermSpan] is the
    string last assigned to that property, not the markup the browser
    parses out of it. *)
Record State : Type := mkState {
  advocates : cell;
  filteredAdvocates : cell;
  searchTermSpan : string;
  console : list entry
}.

Definition setAdvocates (c : cell) (st : State) : State :=
  {| advocates := c; filteredAdvocates := filteredAdvocates st;
     searchTermSpan := searchTermSpan st; console := console st |}.

Definition setFilteredAdvocates (c : cell) (st : State) : State :=
  {| advocates := advocates st; filteredAdvocates := c;
     searchTermSpan := searchTermSpan st; console := console st |}.

Definition setInnerHTML (value : string) (st : State) : State :=
  {| advocates := advocates st; filteredAdvocates := filteredAdvocates st;
     searchTermSpan := value; console := console st |}.

Definition consoleWrite (e : entry) (st : State) : State :=
  {| advocates := advocates st; filteredAdvocates := filteredAdvocates st;
     searchTermSpan := searchTermSpan st; console := console st ++ [e] |}.

Definition initialState : State :=
  {| advocates := Some []; filteredAdvocates := Some [];
     searchTermSpan := ""; console := [] |}.

(** The mount effect: a promise chain with no rejection handler. *)
Definition useEffect (r : response) (st : State) : State * completion :=
  let st := consoleWrite (Log "fetching advocates...") st in
  match r with
  | FetchRejected | BodyRejected | Body JsonNull => (st, Threw)
  | Body (JsonObject data) => (setFilteredAdvocates data (setAdvocates data st), Returned)
  end.

Definition onChange (searchTerm : string) (st : State) : State * completion :=
  let st := setInnerHTML searchTerm st in
  let st := consoleWrite (Log "filtering advocates...") st in
  match advocates st with
  | Some l =>
      match filterAdvocates l searchTerm with
      | Ok filtered => (setFilteredAdvocates (Some filtered) st, Returned)
      | TypeError => (st, Threw)
      end
  | None => (st, Threw)
  end.

Definition onClick (st : State) : State :=
  let st := consoleWrite (LogAdvocates (advocates st)) st in
  setFilteredAdvocates (advocates st) st.

Definition handle (e : event) (st : State) : State :=
  match e with
  | Fetched r => fst (useEffect r st)
  | Change value => fst (onChange value st)
  | Reset => onClick st
  end.

Definition displaySubset (st : State) : Prop :=
  forall a : Advocate, a ∈ records (filteredAdvocates st) -> a ∈ records (advocates st).

End Legacy.

(** ** The table *)

(** [keyof Advocate]. *)
Inductive AdvocateKey : Type :=
| IdKey
| FirstNameKey
| LastNameKey
| CityKey
| DegreeKey
| SpecialtiesKey
| YearsOfExperienceKey
| PhoneNumberKey
| CreatedAtKey.

(** The property name a key stands for. *)
Definition keyName (k : AdvocateKey) : string :=
  match k with
  | IdKey => "id"
  | FirstNameKey => "firstName"
  | LastNameKey => "lastName"
  | CityKey => "city"
  | DegreeKey => "degree"
  | SpecialtiesKey => "specialties"
  | YearsOfExperienceKey => "yearsOfExperience"
  | PhoneNumberKey => "phoneNumber"
  | CreatedAtKey => "createdAt"
  end.

(** [type ColumnConfig]. *)
Record ColumnConfig : Type := mkColumn {
  key : AdvocateKey;
  label : string
}.

Definition COLUMNS : list ColumnConfig :=
  [ {| key := FirstNameKey; label := "First Name" |};
    {| key := LastNameKey; label := "Last Name" |};
    {| key := CityKey; label := "City" |};
    {| key := DegreeKey; label := "Degree" |};
    {| key := SpecialtiesKey; label := "Specialties" |};
    {| key := YearsOfExperienceKey; label := "Years of Experience" |};
    {| key := PhoneNumberKey; label := "Phone Number" |} ].

(** What [advocate[col.key]] evaluates to. *)
Inductive FieldValue : Type :=
| UndefinedValue
| NumberValue (n : Z)
| StringValue (s : string)
| ArrayValue (items : list string)
| DateValue (time : Z).

(** [advocate[col.key]]. *)
Definition getField (advocate : Advocate) (k : AdvocateKey) : FieldValue :=
  match k with
  | IdKey => from_option NumberValue UndefinedValue (id advocate)
  | FirstNameKey => StringValue (firstName advocate)
  | LastNameKey => StringValue (lastName advocate)
  | CityKey => StringValue (city advocate)
  | DegreeKey => StringValue (degree advocate)
  | SpecialtiesKey => ArrayValue (specialties advocate)
  | YearsOfExperienceKey => NumberValue (yearsOfExperience advocate)
  | PhoneNumberKey => NumberValue (phoneNumber advocate)
  | CreatedAtKey => from_option DateValue UndefinedValue (createdAt advocate)
  end.

(** A React key as written in the markup: a number or a string. *)
Inductive ReactKey : Type :=
| NumberKey (n : Z)
| StringKey (s : string).

(** The key as text, which is how keys are compared and how a template
    literal prints one. *)
Definition keyText (k : ReactKey) : string :=
  match k with
  | NumberKey n => Js.numberToString n
  | StringKey s => s
  end.

(** [advocate.id ?? `advocate-${index}`]. *)
Definition rowKey (advocate : Advocate) (index : nat) : ReactKey :=
  match id advocate with
  | Some n => NumberKey n
  | None => StringKey ("advocate-" +:+ Js.numberToString (Z.of_nat index))
  end.

(** One element of a rendered array value: its key and its text. *)
Record Chip : Type := mkChip {
  chipKey : string;
  chipText : string
}.

(** The children of a [td]. *)
Inductive CellContent : Type :=
| ChipList (chips : list Chip)
| TextNode (text : string)
| NoContent.

Record DataCell : Type := mkDataCell {
  tdKey : string;
  tdContent : CellContent
}.

Record TableRow : Type := mkTableRow {
  trKey : ReactKey;
  trCells : list DataCell
}.

Record HeaderCell : Type := mkHeaderCell {
  thKey : string;
  thLabel : string
}.

(** The [th] cells: one per column, keyed by the column key. *)
Definition renderHeader : list HeaderCell :=
  map (fun col => {| thKey := keyName (key col); thLabel := label col |}) COLUMNS.

(** [`${rowKey}-${col.key}-${idx}`]. *)
Definition chipKeyOf (k : ReactKey) (col : ColumnConfig) (idx : nat) : string :=
  keyText k +:+ "-" +:+ keyName (key col) +:+ "-" +:+ Js.numberToString (Z.of_nat idx).

(** [value.map((item, idx) => ...)] of an array value. *)
Definition renderItems (k : ReactKey) (col : ColumnConfig) (items : list string)
  : list Chip :=
  imap (fun idx item => {| chipKey := chipKeyOf k col idx; chipText := item |}) items.

Section Render.

(** [Date.prototype.toLocaleString], which depends on the locale of the
    browser. *)
Variable toLocaleString : Z -> string.

(** The children of one [td] of the current revision: the elements of an
    array, the locale string of a date, or the value itself. *)
Definition renderValue (k : ReactKey) (col : ColumnConfig) (value : FieldValue)
  : CellContent :=
  match value with
  | ArrayValue items => ChipList (renderItems k col items)
  | DateValue time => TextNode (toLocaleString time)
  | StringValue s => TextNode s
  | NumberValue n => TextNode (Js.numberToString n)
  | UndefinedValue => NoContent
  end.

(** The callback of [filteredAdvocates.map]: one [tr] with a [td] per
    column. *)
Definition renderRow (index : nat) (advocate : Advocate) : TableRow :=
  let k := rowKey advocate index in
  {| trKey := k;
     trCells :=
       map (fun col =>
              {| tdKey := keyName (key col);
                 tdContent := renderValue k col (getField advocate (key col)) |})
           COLUMNS |}.

Definition renderRows (l : list Advocate) : list TableRow := imap renderRow l.

(** [filteredAdvocates.map(...)]: calling [map] on [undefined] throws. *)
Definition renderBody (c : cell) : result (list TableRow) :=
  match c with
  | Some l => Ok (renderRows l)
  | None => TypeError
  end.

Definition renderTable (st : State) : result (list TableRow) :=
  renderBody (filteredAdvocates st).

End Render.

(** The table of the older revision. *)
Module LegacyTable.

(** A render either yields its output or is refused by React. *)
Inductive rendered (A : Type) : Type :=
| Rendered (a : A)
| InvalidChild.
Arguments Rendered {A} a.
Arguments InvalidChild {A}.

(** The children of one [td]: the elements of an array, or the value itself;
    React refuses an object such as a [Date] as a child. *)
Definition renderValue (k : ReactKey) (col : ColumnConfig) (value : FieldValue)
  : rendered CellContent :=
  match value with
  | ArrayValue items => Rendered (ChipList (renderItems k col items))
  | DateValue _ => InvalidChild
  | StringValue s => Rendered (TextNode s)
  | NumberValue n => Rendered (TextNode (Js.numberToString n))
  | UndefinedValue => Rendered NoContent
  end.

Definition renderCell (k : ReactKey) (advocate : Advocate) (col : ColumnConfig)
  : rendered DataCell :=
  match renderValue k col (getField advocate (key col)) with
  | Rendered content => Rendered {| tdKey := keyName (key col); tdContent := content |}
  | InvalidChild => InvalidChild
  end.

Fixpoint renderCells (k : ReactKey) (advocate : Advocate) (cols : list ColumnConfig)
  : rendered (list DataCell) :=
  match cols with
  | [] => Rendered []
  | col :: cols' =>
      match renderCell k advocate col, renderCells k advocate cols' with
      | Rendered c, Rendered cs => Rendered (c :: cs)
      | _, _ => InvalidChild
      end
  end.

Definition renderRow (index : nat) (advocate : Advocate) : rendered TableRow :=
  let k := rowKey advocate index in
  match renderCells k advocate COLUMNS with
  | Rendered cells => Rendered {| trKey := k; trCells := cells |}
  | InvalidChild => InvalidChild
  end.

End LegacyTable.

(** ** The change handler on records as received *)

(** A fetched record with every property optional: the six searched fields
    and the three the filter does not read. *)
Record ReceivedAdvocate : Type := mkReceivedAdvocate {
  searched : RawAdvocate;
  receivedId : option Z;
  receivedPhoneNumber : option Z;
  receivedCreatedAt : option Z
}.

(** [advocate[col.key]] on a received record: a missing property reads as
    [undefined]. *)
Definition receivedField (advocate : ReceivedAdvocate) (k : AdvocateKey) : FieldValue :=
  match k with
  | IdKey => from_option NumberValue UndefinedValue (receivedId advocate)
  | FirstNameKey =>
      from_option StringValue UndefinedValue (rawFirstName (searched advocate))
  | LastNameKey =>
      from_option StringValue UndefinedValue (rawLastName (searched advocate))
  | CityKey => from_option StringValue UndefinedValue (rawCity (searched advocate))
  | DegreeKey => from_option StringValue UndefinedValue (rawDegree (searched advocate))
  | SpecialtiesKey =>
      from_option ArrayValue UndefinedValue (rawSpecialties (searched advocate))
  | YearsOfExperienceKey =>
      from_option NumberValue UndefinedValue (rawYearsOfExperience (searched advocate))
  | PhoneNumberKey =>
      from_option NumberValue UndefinedValue (receivedPhoneNumber advocate)
  | CreatedAtKey => from_option DateValue UndefinedValue (receivedCreatedAt advocate)
  end.

(** [advocate.id ?? `advocate-${index}`] on a received record. *)
Definition receivedRowKey (advocate : ReceivedAdvocate) (index : nat) : ReactKey :=
  match receivedId advocate with
  | Some n => NumberKey n
  | None => StringKey ("advocate-" +:+ Js.numberToString (Z.of_nat index))
  end.

(** The state of the page with lists of received records. *)
Record ReceivedState : Type := mkReceivedState {
  receivedAdvocates : list ReceivedAdvocate;
  receivedFiltered : list ReceivedAdvocate;
  receivedSearchTerm : string;
  receivedConsole : list entry
}.

(** [advocates.filter(...)] with the callback of the current revision. *)
Definition filterReceived (advocates : list ReceivedAdvocate) (value : string)
  : result (list ReceivedAdvocate) :=
  filterM (fun advocate => advocateMatchesRaw value (searched advocate)) advocates.

(** [onChange] of the current revision: when the filter throws, the handler
    ends before [setFilteredAdvocates]; the search term was set and the
    console line written before that. *)
Definition onChangeReceived (value : string) (st : ReceivedState)
  : ReceivedState * completion :=
  let st :=
    {| receivedAdvocates := receivedAdvocates st;
       receivedFiltered := receivedFiltered st;
       receivedSearchTerm := value;
       receivedConsole := receivedConsole st ++ [Log "filtering advocates..."] |} in
  match filterReceived (receivedAdvocates st) value with
  | Ok kept =>
      ({| receivedAdvocates := receivedAdvocates st;
          receivedFiltered := kept;
          receivedSearchTerm := receivedSearchTerm st;
          receivedConsole := receivedConsole st |}, Returned)
  | TypeError => (st, Threw)
  end.

Section RenderReceived.

Variable toLocaleString : Z -> string.

(** The callback of [filteredAdvocates.map] on a received record. *)
Definition renderReceivedRow (index : nat) (advocate : ReceivedAdvocate) : TableRow :=
  let k := receivedRowKey advocate index in
  {| trKey := k;
     trCells :=
       map (fun col =>
              {| tdKey := keyName (key col);
                 tdContent :=
                   renderValue toLocaleString k col (receivedField advocate (key col)) |})
           COLUMNS |}.

(** The rows of the table for the display list of a state. *)
Definition renderReceived (st : ReceivedState) : list TableRow :=
  imap renderReceivedRow (receivedFiltered st).

End RenderReceived.

(** ** Vocabulary of the further properties *)

(** The display list is the filter of the full list by the shown term. *)
Definition displayFollowsTerm (st : State) : Prop :=
  exists l : list Advocate,
    advocates st = Some l
    /\ filteredAdvocates st = Some (filterAdvocates l (searchTerm st)).

(** An event of the user: a change of the input or a reset. *)
Definition userEvent (e : event) : Prop :=
  match e with
  | Fetched _ => False
  | Change _ | Reset => True
  end.


(** Some field the filter reads is missing. *)
Definition missingField (a : RawAdvocate) : Prop :=
  rawFirstName a = None \/ rawLastName a = None \/ rawCity a = None
  \/ rawDegree a = None \/ rawSpecialties a = None \/ rawYearsOfExperience a = None.

(** What the older filter looks for in a record: the term inside one of the
    four text fields as written, or a specialty equal to the term. *)
Definition legacyTextMatch (t : string) (a : Advocate) : Prop :=
  Contains (firstName a) t \/ Contains (lastName a) t \/ Contains (city a) t
  \/ Contains (degree a) t \/ t ∈ specialties a.

(** The texts a cell shows, without the keys. *)
Definition contentTexts (c : CellContent) : list string :=
  match c with
  | ChipList chips => map chipText chips
  | TextNode text => [text]
  | NoContent => []
  end.

(** The texts of a row, cell by cell. *)
Definition shownTexts (r : TableRow) : list (list string) :=
  map (fun c => contentTexts (tdContent c)) (trCells r).



(** A character of the ASCII range. *)
Definition isAsciiChar (c : ascii) : bool := (N_of_ascii c <? 128)%N.

(** A string of ASCII characters. *)
Definition asciiText (s : string) : Prop := Js.allChars isAsciiChar s = true.

(** A record whose searched text fields are ASCII. *)
Definition asciiRecord (a : Advocate) : Prop :=
  asciiText (firstName a) /\ asciiText (lastName a) /\ asciiText (city a)
  /\ asciiText (degree a) /\ Forall asciiText (specialties a).

(** [Number.isSafeInteger], on an integer. *)
Definition safeInteger (n : Z) : Prop :=
  (- (2 ^ 53 - 1) <= n <= 2 ^ 53 - 1)%Z.

(** The seven fields the table shows. *)
Definition agreeOnDisplayed (a b : Advocate) : Prop :=
  firstName a = firstName b /\ lastName a = lastName b /\ city a = city b
  /\ degree a = degree b /\ specialties a = specialties b
  /\ yearsOfExperience a = yearsOfExperience b /\ phoneNumber a = phoneNumber b.

(** ** The specification's vocabulary *)

(** A search term made of ASCII letters only. *)
Definition alphabetic (t : string) : Prop := Js.allChars Js.isLetter t = true.

(** A non-empty search term made of whitespace only. *)
Definition whitespaceOnly (t : string) : Prop :=
  t <> "" /\ Js.allChars Js.isWhitespace t = true.

(** At least one searched field contains the term: text fields after
    lower-casing both sides, the years as printed in decimal. *)
Definition Matches (t : string) (a : Advocate) : Prop :=
  Contains (Js.toLowerCase (firstName a)) (Js.toLowerCase t)
  \/ Contains (Js.toLowerCase (lastName a)) (Js.toLowerCase t)
  \/ Contains (Js.toLowerCase (city a)) (Js.toLowerCase t)
  \/ Contains (Js.toLowerCase (degree a)) (Js.toLowerCase t)
  \/ (exists specialty, specialty ∈ specialties a
        /\ Contains (Js.toLowerCase specialty) (Js.toLowerCase t))
  \/ Contains (Js.numberToString (yearsOfExperience a)) t.

(** Two records that differ at most in [id], [phoneNumber], [createdAt]. *)
Definition agreeOnSearched (a b : Advocate) : Prop :=
  firstName a = firstName b /\ lastName a = lastName b /\ city a = city b
  /\ degree a = degree b /\ specialties a = specialties b
  /\ yearsOfExperience a = yearsOfExperience b.

(** The fetch ending [r] is reported as [error] on the console and leaves
    the two lists and the search term as they were. *)
Definition reportedAndKept (r : response) (error : failure) : Prop :=
  forall st : State,
    advocates (fetchAdvocates r st) = advocates st
    /\ filteredAdvocates (fetchAdvocates r st) = filteredAdvocates st
    /\ searchTerm (fetchAdvocates r st) = searchTerm st
    /\ console (fetchAdvocates r st)
       = console st ++ [Log "fetching advocates...";
                        LogError "Failed to fetch advocates:" error].

(** ** Sample data *)

Definition jane : Advocate :=
  {| id := None; firstName := "Jane"; lastName := "Doe"; city := "Austin";
     degree := "MD"; specialties := ["Cardiology"]; yearsOfExperience := 10;
     phoneNumber := 5551234567; createdAt := None |}.

Definition john : Advocate :=
  {| id := None; firstName := "John"; lastName := "Smith"; city := "Boston";
     degree := "PhD"; specialties := ["Neurology"]; yearsOfExperience := 5;
     phoneNumber := 5559876543; createdAt := None |}.

Definition alice : Advocate :=
  {| id := Some 3%Z; firstName := "Alice"; lastName := "Wong"; city := "Denver";
     degree := "MSW"; specialties := ["Pediatrics"; "Oncology"];
     yearsOfExperience := 15; phoneNumber := 5550001111; createdAt := None |}.

(** [jane] with another [id], [phoneNumber] and [createdAt]. *)
Definition janeRenumbered : Advocate :=
  {| id := Some 7%Z; firstName := "Jane"; lastName := "Doe"; city := "Austin";
     degree := "MD"; specialties := ["Cardiology"]; yearsOfExperience := 10;
     phoneNumber := 15; createdAt := Some 1700000000000%Z |}.

(** [alice] as received without a [firstName]. *)
Definition aliceNoFirstName : RawAdvocate :=
  {| rawFirstName := None; rawLastName := Some "Wong"; rawCity := Some "Denver";
     rawDegree := Some "MSW"; rawSpecialties := Some ["Pediatrics"; "Oncology"];
     rawYearsOfExperience := Some 15%Z |}.

(** [john] as received without [yearsOfExperience]. *)
Definition johnNoYears : RawAdvocate :=
  {| rawFirstName := Some "John"; rawLastName := Some "Smith";
     rawCity := Some "Boston"; rawDegree := Some "PhD";
     rawSpecialties := Some ["Neurology"]; rawYearsOfExperience := None |}.

(** A page that shows [jane] and holds [jane] and a [john] received without
    [yearsOfExperience]. *)
Definition receivedJane : ReceivedAdvocate :=
  {| searched := toRaw jane; receivedId := None;
     receivedPhoneNumber := Some 5551234567%Z; receivedCreatedAt := None |}.

Definition receivedJohnNoYears : ReceivedAdvocate :=
  {| searched := johnNoYears; receivedId := None;
     receivedPhoneNumber := Some 5559876543%Z; receivedCreatedAt := None |}.

Definition receivedPage : ReceivedState :=
  {| receivedAdvocates := [receivedJane; receivedJohnNoYears];
     receivedFiltered := [receivedJane];
     receivedSearchTerm := "jane";
     receivedConsole := [] |}.

(** The state after a successful fetch of [jane] and [john]. *)
Definition loaded : State :=
  fetchAdvocates (Body (JsonObject (Some [jane; john]))) initialState.

Definition legacyLoaded : Legacy.State :=
  fst (Legacy.useEffect (Body (JsonObject (Some [jane; john]))) Legacy.initialState).

Example numberToString_15 : Js.numberToString 15 = "15".
Proof. reflexivity. Qed.

Example numberToString_0 : Js.numberToString 0 = "0".
Proof. reflexivity. Qed.

Example includes_mid : Js.includes "Oncology" "colo" = true.
Proof. reflexivity. Qed.

Example includes_absent : Js.includes "Oncology" "onco" = false.
Proof. reflexivity. Qed.

Example toLowerCase_mixed : Js.toLowerCase "PhD-3" = "phd-3".
Proof. reflexivity. Qed.

Example search_bos : filterAdvocates [jane; john] "bos" = [john].
Proof. reflexivity. Qed.

Example search_onco : filterAdvocates [jane; alice] "onco" = [alice].
Proof. reflexivity. Qed.

Example legacy_search_J : Legacy.filterAdvocates [jane; john] "J" = Ok [jane; john].
Proof. reflexivity. Qed.

Example legacy_search_bos : Legacy.filterAdvocates [jane; john] "Bos" = TypeError.
Proof. reflexivity. Qed.

(** ** Facts about strings *)

Section StringFacts.

Lemma startsWith_spec (s t : string) :
  Js.startsWith s t = true <-> exists post, s = t +:+ post.
Proof.
  revert s. induction t as [|b t IH]; intros s; simpl.
  - split; [intros _; exists s; reflexivity | reflexivity].
  - destruct s as [|a s]; simpl.
    + split; [discriminate | intros [post H]; discriminate].
    + destruct (Ascii.eqb_spec a b) as [->|Hne].
      * rewrite IH. split; intros [post H]; exists post.
        -- now rewrite H.
        -- now injection H.
      * split; [discriminate | intros [post H]; injection H; congruence].
Qed.

Lemma includes_spec (s t : string) :
  Js.includes s t = true <-> Contains s t.
Proof.
  split.
  - induction s as [|a s IH]; simpl; rewrite orb_true_iff.
    + intros [H|H]; [|discriminate].
      apply startsWith_spec in H as [post H]. now exists "", post.
    + intros [H|H].
      * apply startsWith_spec in H as [post H]. now exists "", post.
      * destruct (IH H) as (pre & post & ->). now exists (String a pre), post.
  - intros (pre & post & ->). induction pre as [|a pre IH].
    + assert (H : Js.startsWith (t +:+ post) t = true)
        by (apply startsWith_spec; now exists post).
      simpl. destruct (t +:+ post); simpl in *; rewrite H; reflexivity.
    + simpl. rewrite IH. apply orb_true_r.
Qed.

Lemma includes_empty (s : string) : Js.includes s "" = true.
Proof. destruct s; reflexivity. Qed.

Lemma includes_allChars (p : ascii -> bool) (s t : string) :
  Js.includes s t = true -> Js.allChars p s = true -> Js.allChars p t = true.
Proof.
  intros H; apply includes_spec in H as (pre & post & ->).
  induction pre as [|a pre IH]; simpl.
  - induction t as [|b t IHt]; simpl; [reflexivity|].
    rewrite !andb_true_iff. intros [? ?]; auto.
  - rewrite andb_true_iff. intros [_ ?]; auto.
Qed.

Lemma lowerChar_idempotent (c : ascii) : Js.lowerChar (Js.lowerChar c) = Js.lowerChar c.
Proof. destruct c as [[] [] [] [] [] [] [] []]; reflexivity. Qed.

Lemma lowerChar_upperChar (c : ascii) : Js.lowerChar (Js.upperChar c) = Js.lowerChar c.
Proof. destruct c as [[] [] [] [] [] [] [] []]; reflexivity. Qed.

Lemma toLowerCase_idempotent (s : string) :
  Js.toLowerCase (Js.toLowerCase s) = Js.toLowerCase s.
Proof.
  induction s as [|c s IH]; simpl; [reflexivity|].
  unfold Js.toLowerCase in *; simpl. now rewrite lowerChar_idempotent, IH.
Qed.

Lemma toLowerCase_toUpperCase (s : string) :
  Js.toLowerCase (Js.toUpperCase s) = Js.toLowerCase s.
Proof.
  induction s as [|c s IH]; simpl; [reflexivity|].
  unfold Js.toLowerCase, Js.toUpperCase in *; simpl.
  now rewrite lowerChar_upperChar, IH.
Qed.

End StringFacts.

(** ** Facts about printed numbers and letters *)

Section NumberFacts.

Lemma string_of_uint_digits (d : Decimal.uint) :
  Js.allChars Js.isNumberChar (NilEmpty.string_of_uint d) = true.
Proof. induction d; simpl; auto. Qed.

Lemma numberToString_chars (n : Z) :
  Js.allChars Js.isNumberChar (Js.numberToString n) = true.
Proof.
  unfold Js.numberToString. destruct (Z.to_int n); simpl;
    apply string_of_uint_digits.
Qed.

Lemma letter_not_numberChar (c : ascii) :
  Js.isLetter c = true -> Js.isNumberChar c = false.
Proof. destruct c as [[] [] [] [] [] [] [] []]; vm_compute; congruence. Qed.

Lemma isLetter_upperChar (c : ascii) : Js.isLetter (Js.upperChar c) = Js.isLetter c.
Proof. destruct c as [[] [] [] [] [] [] [] []]; reflexivity. Qed.

Lemma isLetter_lowerChar (c : ascii) : Js.isLetter (Js.lowerChar c) = Js.isLetter c.
Proof. destruct c as [[] [] [] [] [] [] [] []]; reflexivity. Qed.

Lemma alphabetic_toUpperCase (t : string) : alphabetic t -> alphabetic (Js.toUpperCase t).
Proof.
  unfold alphabetic. induction t as [|c t IH]; simpl; [reflexivity|].
  rewrite !andb_true_iff, isLetter_upperChar. intros [? ?]; auto.
Qed.

Lemma alphabetic_toLowerCase (t : string) : alphabetic t -> alphabetic (Js.toLowerCase t).
Proof.
  unfold alphabetic. induction t as [|c t IH]; simpl; [reflexivity|].
  rewrite !andb_true_iff, isLetter_lowerChar. intros [? ?]; auto.
Qed.

(** A printed integer contains a term made of letters only when the term
    is empty. *)
Lemma number_includes_alphabetic (n : Z) (t : string) :
  alphabetic t -> Js.includes (Js.numberToString n) t = Js.isEmpty t.
Proof.
  intros Ht. destruct t as [|c t]; [apply includes_empty|].
  simpl. apply not_true_is_false. intros H.
  apply includes_allChars with (p := Js.isNumberChar) in H;
    [|apply numberToString_chars].
  unfold alphabetic in Ht. simpl in H, Ht.
  apply andb_true_iff in H as [H _]. apply andb_true_iff in Ht as [Ht _].
  apply letter_not_numberChar in Ht. congruence.
Qed.

Lemma isEmpty_mapChars (f : ascii -> ascii) (t : string) :
  Js.isEmpty (Js.mapChars f t) = Js.isEmpty t.
Proof. destruct t; reflexivity. Qed.

End NumberFacts.

(** ** The filter of the current revision *)

Section CurrentFilter.

Lemma advocateMatches_spec (t : string) (a : Advocate) :
  advocateMatches t a = true <-> Matches t a.
Proof.
  unfold advocateMatches, Matches.
  rewrite !orb_true_iff, !includes_spec, existsb_exists.
  assert (Hsome :
    (exists x, In x (specialties a)
       /\ Js.includes (Js.toLowerCase x) (Js.toLowerCase t) = true)
    <-> (exists specialty, specialty ∈ specialties a
       /\ Contains (Js.toLowerCase specialty) (Js.toLowerCase t))).
  { split; intros (x & Hx & H); exists x; split;
      solve [now apply list_elem_of_In | now apply includes_spec]. }
  rewrite Hsome. tauto.
Qed.

(** The output of the filter holds exactly the records of the input of
    which some searched field contains the term. *)
Lemma filterAdvocates_spec (L : list Advocate) (t : string) (a : Advocate) :
  a ∈ filterAdvocates L t <-> a ∈ L /\ Matches t a.
Proof.
  unfold filterAdvocates.
  rewrite !list_elem_of_In, filter_In, advocateMatches_spec. tauto.
Qed.

Lemma advocateMatches_toUpperCase (t : string) (a : Advocate) :
  alphabetic t -> advocateMatches (Js.toUpperCase t) a = advocateMatches t a.
Proof.
  intros Ht. unfold advocateMatches.
  rewrite toLowerCase_toUpperCase.
  rewrite !number_includes_alphabetic by auto using alphabetic_toUpperCase.
  unfold Js.toUpperCase. now rewrite isEmpty_mapChars.
Qed.

Lemma advocateMatches_toLowerCase (t : string) (a : Advocate) :
  alphabetic t -> advocateMatches (Js.toLowerCase t) a = advocateMatches t a.
Proof.
  intros Ht. unfold advocateMatches.
  rewrite toLowerCase_idempotent.
  rewrite !number_includes_alphabetic by auto using alphabetic_toLowerCase.
  unfold Js.toLowerCase at 11. now rewrite isEmpty_mapChars.
Qed.

(** For a term of letters, the case of the term does not change the
    output. *)
Lemma filterAdvocates_case_insensitive (L : list Advocate) (t : string) :
  alphabetic t ->
  filterAdvocates L t = filterAdvocates L (Js.toUpperCase t)
  /\ filterAdvocates L (Js.toUpperCase t) = filterAdvocates L (Js.toLowerCase t).
Proof.
  intros Ht. unfold filterAdvocates. split; apply filter_ext; intros a.
  - symmetry. now apply advocateMatches_toUpperCase.
  - now rewrite advocateMatches_toUpperCase, advocateMatches_toLowerCase.
Qed.

(** A record with fifteen years of experience is kept for "5" and "15". *)
Lemma years_15_matches (a : Advocate) :
  yearsOfExperience a = 15%Z ->
  advocateMatches "5" a = true /\ advocateMatches "15" a = true.
Proof.
  intros H. unfold advocateMatches. rewrite H. split; apply orb_true_r.
Qed.

Lemma advocateMatches_empty (a : Advocate) : advocateMatches "" a = true.
Proof. unfold advocateMatches. now rewrite includes_empty. Qed.

Lemma filterAdvocates_empty_term (L : list Advocate) : filterAdvocates L "" = L.
Proof.
  unfold filterAdvocates. induction L as [|a L IH]; simpl; [reflexivity|].
  now rewrite advocateMatches_empty, IH.
Qed.

Lemma filterAdvocates_sublist (L : list Advocate) (t : string) :
  filterAdvocates L t `sublist_of` L.
Proof.
  unfold filterAdvocates. induction L as [|a L IH]; simpl; [constructor|].
  destruct (advocateMatches t a); now constructor.
Qed.

End CurrentFilter.

(** ** The filter on run-time records *)

Section RawFilter.

Lemma orElse_Ok (b1 b2 : bool) : Ok b1 ||| Ok b2 = Ok (b1 || b2).
Proof. destruct b1; reflexivity. Qed.

Lemma advocateMatchesRaw_toRaw (value : string) (a : Advocate) :
  advocateMatchesRaw value (toRaw a) = Ok (advocateMatches value a).
Proof.
  unfold advocateMatchesRaw, advocateMatches, lowerFieldIncludes.
  cbn [toRaw rawFirstName rawLastName rawCity rawDegree rawSpecialties
       rawYearsOfExperience].
  now rewrite !orElse_Ok.
Qed.

Lemma filterRaw_toRaw (L : list Advocate) (value : string) :
  filterRaw (map toRaw L) value = Ok (map toRaw (filterAdvocates L value)).
Proof.
  unfold filterRaw, filterAdvocates.
  induction L as [|a L IH]; simpl; [reflexivity|].
  rewrite advocateMatchesRaw_toRaw; simpl. rewrite IH; simpl.
  now destruct (advocateMatches value a).
Qed.

(** A record without [firstName] makes the callback throw, whatever the
    other fields hold. *)
Lemma advocateMatchesRaw_no_firstName (value : string) (a : RawAdvocate) :
  rawFirstName a = None -> advocateMatchesRaw value a = TypeError.
Proof. intros H. unfold advocateMatchesRaw. now rewrite H. Qed.

End RawFilter.

(** ** The filter of the older revision *)

Section LegacyFilter.

(** The older callback never answers [false]: a record that matches no
    text field reaches the call on the number and throws. *)
Lemma legacy_advocateMatches_cases (t : string) (a : Advocate) :
  Legacy.advocateMatches t a = Ok true \/ Legacy.advocateMatches t a = TypeError.
Proof.
  unfold Legacy.advocateMatches.
  destruct (Js.includes (firstName a) t), (Js.includes (lastName a) t),
    (Js.includes (city a) t), (Js.includes (degree a) t),
    (existsb (String.eqb t) (specialties a)); simpl; auto.
Qed.

(** So the older filter returns its whole input or throws. *)
Lemma legacy_filterAdvocates_all (L out : list Advocate) (t : string) :
  Legacy.filterAdvocates L t = Ok out -> out = L.
Proof.
  unfold Legacy.filterAdvocates. revert out.
  induction L as [|a L IH]; simpl; intros out H; [congruence|].
  destruct (legacy_advocateMatches_cases t a) as [E|E]; rewrite E in H;
    simpl in H; [|discriminate].
  destruct (filterM (Legacy.advocateMatches t) L) as [rest|] eqn:Hrest;
    simpl in H; [|discriminate].
  injection H as <-. f_equal. now apply IH.
Qed.

Lemma legacy_advocateMatches_empty (a : Advocate) :
  Legacy.advocateMatches "" a = Ok true.
Proof. unfold Legacy.advocateMatches. now rewrite includes_empty. Qed.

Lemma legacy_filterAdvocates_empty_term (L : list Advocate) :
  Legacy.filterAdvocates L "" = Ok L.
Proof.
  unfold Legacy.filterAdvocates. induction L as [|a L IH]; simpl; [reflexivity|].
  rewrite legacy_advocateMatches_empty; simpl. now rewrite IH.
Qed.

End LegacyFilter.

(** ** The handlers of the current revision *)

Section CurrentHandlers.

(** Reset shows the full list again and clears the search term. *)
Lemma onClick_resets (st : State) :
  filteredAdvocates (onClick st) = advocates st
  /\ advocates (onClick st) = advocates st
  /\ searchTerm (onClick st) = "".
Proof. now destruct st. Qed.

Lemma onChange_display (value : string) (st : State) (l : list Advocate) :
  advocates st = Some l ->
  onChange value st
  = (setFilteredAdvocates (Some (filterAdvocates l value))
       (consoleWrite (Log "filtering advocates...") (setSearchTerm value st)),
     Returned).
Proof. intros H. unfold onChange; simpl. now rewrite H. Qed.

Lemma records_filter_subset (l : list Advocate) (value : string) (a : Advocate) :
  a ∈ filterAdvocates l value -> a ∈ l.
Proof. intros H. now apply filterAdvocates_spec in H. Qed.

Lemma handle_displaySubset (e : event) (st : State) :
  displaySubset st -> displaySubset (handle e st).
Proof.
  unfold displaySubset. destruct st as [full shown term out].
  destruct e as [[| |[|data]]|value|]; simpl; auto.
  unfold onChange; simpl. destruct full as [l|]; simpl; auto.
  intros _ a. apply records_filter_subset.
Qed.

Lemma legacy_handle_displaySubset (e : event) (st : Legacy.State) :
  Legacy.displaySubset st -> Legacy.displaySubset (Legacy.handle e st).
Proof.
  unfold Legacy.displaySubset. destruct st as [full shown span out].
  destruct e as [[| |[|data]]|value|]; simpl; auto.
  unfold Legacy.onChange; simpl. destruct full as [l|]; simpl; auto.
  destruct (Legacy.filterAdvocates l value) as [kept|] eqn:Hkept; simpl; auto.
  apply legacy_filterAdvocates_all in Hkept as ->. auto.
Qed.

(** Every state reached from the initial one keeps the display inside the
    full list. *)
Lemma run_displaySubset (events : list event) (st : State) :
  displaySubset st -> displaySubset (run events st).
Proof.
  unfold run. revert st. induction events as [|e events IH]; simpl; auto.
  intros st H. apply IH. now apply handle_displaySubset.
Qed.

Lemma initialState_displaySubset : displaySubset initialState.
Proof. intros a H. exact H. Qed.

End CurrentHandlers.

Example scenario_bos_then_reset :
  filteredAdvocates (run [Change "bos"] loaded) = Some [john]
  /\ filteredAdvocates (run [Change "bos"; Reset] loaded) = Some [jane; john]
  /\ searchTerm (run [Change "bos"; Reset] loaded) = "".
Proof. repeat split; reflexivity. Qed.

Example phone_digits_not_searched : filterAdvocates [jane; john] "5551234567" = [].
Proof. reflexivity. Qed.

Example undefined_list_makes_onChange_throw :
  snd (onChange "a" (fetchAdvocates (Body (JsonObject None)) initialState)) = Threw.
Proof. reflexivity. Qed.

(** ** The claims of the specification *)

(** C1, on the older revision: the search term "jane" occurs, case aside, in
    the first name of [jane], so the specification keeps her; the older
    filter compares case-sensitively, finds no text match, reaches
    [yearsOfExperience.includes] and throws instead of returning a list.
    The current revision keeps her. *)
Theorem legacy_filter_throws_on_lowercase_term :
  Matches "jane" jane
  /\ Legacy.filterAdvocates [jane] "jane" = TypeError
  /\ filterAdvocates [jane] "jane" = [jane].
Proof.
  split; [|split; reflexivity].
  apply advocateMatches_spec. reflexivity.
Qed.

(** C2, on the older revision: for the alphabetic term "J" the older filter
    returns both records, while for the lower-cased term it throws, so the
    two outputs differ. *)
Theorem legacy_filter_case_sensitive :
  alphabetic "J"
  /\ Legacy.filterAdvocates [jane; john] "J" = Ok [jane; john]
  /\ Legacy.filterAdvocates [jane; john] (Js.toLowerCase "J") = TypeError
  /\ Legacy.filterAdvocates [jane; john] (Js.toUpperCase "J") = Ok [jane; john].
Proof. repeat split; reflexivity. Qed.

(** C3 as stated fails: a record without [firstName] is not treated as a
    non-match, the callback throws on it and the whole filter with it, even
    though one of its specialties contains the term. *)
Lemma filter_throws_on_missing_field :
  advocateMatchesRaw "onco" aliceNoFirstName = TypeError
  /\ filterRaw [toRaw jane; aliceNoFirstName] "onco" = TypeError.
Proof. split; reflexivity. Qed.

(** C4, on the older revision: [alice] has fifteen years of experience, and
    the older filter throws for both "5" and "15" instead of keeping her;
    the change handler ends by throwing and the display is left as it was.
    The current revision keeps her for both terms. *)
Theorem legacy_filter_throws_on_years :
  yearsOfExperience alice = 15%Z
  /\ Legacy.filterAdvocates [alice] "5" = TypeError
  /\ Legacy.filterAdvocates [alice] "15" = TypeError
  /\ snd (Legacy.onChange "5" legacyLoaded) = Threw
  /\ filterAdvocates [alice] "5" = [alice]
  /\ filterAdvocates [alice] "15" = [alice].
Proof. repeat split; reflexivity. Qed.

(** C5, amended: with the empty search term the filter returns its input
    unchanged, and on the empty list it returns the empty list for every
    term, in both revisions; a whitespace-only term is an ordinary term,
    kept records being those with a searched field that contains it. *)
Theorem empty_term_and_empty_list :
  (forall L : list Advocate, filterAdvocates L "" = L)
  /\ (forall t : string, filterAdvocates [] t = [])
  /\ (forall L : list Advocate, Legacy.filterAdvocates L "" = Ok L)
  /\ (forall t : string, Legacy.filterAdvocates [] t = Ok [])
  /\ (forall (L : list Advocate) (t : string) (a : Advocate),
        whitespaceOnly t -> (a ∈ filterAdvocates L t <-> a ∈ L /\ Matches t a)).
Proof.
  split; [apply filterAdvocates_empty_term|].
  split; [reflexivity|].
  split; [apply legacy_filterAdvocates_empty_term|].
  split; [reflexivity|].
  intros L t a _. apply filterAdvocates_spec.
Qed.

(** C5 as stated fails: the term of one space is whitespace-only, and the
    filter returns no record of [jane; john] for it. *)
Lemma whitespace_term_not_full_list :
  whitespaceOnly " "
  /\ filterAdvocates [jane; john] " " = []
  /\ filterAdvocates [jane; john] " " <> [jane; john].
Proof. repeat split; [discriminate | discriminate]. Qed.

(** C6: for every list and every term the output of the filter is a
    subsequence of the input, in the order of the input; in the older
    revision this holds of every output the filter returns. *)
Theorem filter_is_subsequence (L : list Advocate) (t : string) :
  filterAdvocates L t `sublist_of` L
  /\ (forall out, Legacy.filterAdvocates L t = Ok out -> out `sublist_of` L).
Proof.
  split; [apply filterAdvocates_sublist|].
  intros out H. apply legacy_filterAdvocates_all in H as ->. reflexivity.
Qed.

Lemma filter_is_subsequence_witness :
  filterAdvocates [jane; john] "bos" `sublist_of` [jane; john]
  /\ [jane; john] `sublist_of` [jane; john].
Proof.
  split.
  - exact (proj1 (filter_is_subsequence [jane; john] "bos")).
  - apply (proj2 (filter_is_subsequence [jane; john] "J")). reflexivity.
Defined.

(** C7, amended: when the fetch rejects, when the body is not JSON and when
    the body parses to [null], the failure is written to the console with
    [console.error] and both lists and the search term stay as they were
    (empty on first load); a body that parses to an object replaces both
    lists by its [data] property, whatever that is. *)
Theorem fetch_failures_reported_and_kept :
  reportedAndKept FetchRejected NetworkError
  /\ reportedAndKept BodyRejected InvalidJson
  /\ reportedAndKept (Body JsonNull) NullResponse
  /\ (forall (data : cell) (st : State),
        advocates (fetchAdvocates (Body (JsonObject data)) st) = data
        /\ filteredAdvocates (fetchAdvocates (Body (JsonObject data)) st) = data)
  /\ records (advocates initialState) = []
  /\ records (filteredAdvocates initialState) = [].
Proof.
  unfold reportedAndKept.
  repeat match goal with
         | |- _ /\ _ => split
         | |- forall _, _ => intro
         end;
    try reflexivity; simpl; now rewrite <- app_assoc.
Qed.

(** C7 as stated fails: a body that parses to an object without [data] is a
    malformed payload, yet nothing is reported and both lists are replaced
    by [undefined]. *)
Lemma fetch_wrong_shape_replaces_lists :
  advocates (fetchAdvocates (Body (JsonObject None)) initialState) = None
  /\ filteredAdvocates (fetchAdvocates (Body (JsonObject None)) initialState) = None
  /\ advocates (fetchAdvocates (Body (JsonObject None)) initialState)
     <> advocates initialState
  /\ console (fetchAdvocates (Body (JsonObject None)) initialState)
     = [Log "fetching advocates..."].
Proof. repeat split; discriminate. Qed.

(** C8, on the older revision: after a search for "J", reset shows the full
    list again but the search-term span still reads "J"; the current
    revision clears its search term. *)
Theorem legacy_reset_keeps_search_term :
  Legacy.filteredAdvocates (Legacy.onClick (fst (Legacy.onChange "J" legacyLoaded)))
  = Legacy.advocates legacyLoaded
  /\ Legacy.searchTermSpan (Legacy.onClick (fst (Legacy.onChange "J" legacyLoaded))) = "J"
  /\ searchTerm (onClick (fst (onChange "J" loaded))) = "".
Proof. repeat split; reflexivity. Qed.

(** C9: every operation (a fetch however it ends, a change of the search
    input, reset) keeps every record of the display list a member of the
    full list, in both revisions. *)
Theorem display_subset_preserved :
  (forall (e : event) (st : State), displaySubset st -> displaySubset (handle e st))
  /\ (forall (e : event) (st : Legacy.State),
        Legacy.displaySubset st -> Legacy.displaySubset (Legacy.handle e st)).
Proof. split; [apply handle_displaySubset | apply legacy_handle_displaySubset]. Qed.

Lemma display_subset_preserved_witness :
  displaySubset (handle (Change "bos") loaded)
  /\ Legacy.displaySubset (Legacy.handle Reset legacyLoaded).
Proof.
  split.
  - apply (proj1 display_subset_preserved). intros a H. exact H.
  - apply (proj2 display_subset_preserved). intros a H. exact H.
Defined.

(** C10: two records that differ at most in [id], [phoneNumber] and
    [createdAt] get the same answer from the filter callback for every
    search term, in both revisions. *)
Theorem filter_ignores_unsearched_fields (a b : Advocate) (t : string) :
  agreeOnSearched a b ->
  advocateMatches t a = advocateMatches t b
  /\ Legacy.advocateMatches t a = Legacy.advocateMatches t b.
Proof.
  intros (Hf & Hl & Hc & Hd & Hs & Hy).
  unfold advocateMatches, Legacy.advocateMatches.
  now rewrite Hf, Hl, Hc, Hd, Hs, Hy.
Qed.

Lemma filter_ignores_unsearched_fields_witness :
  agreeOnSearched jane janeRenumbered
  /\ advocateMatches "15" jane = advocateMatches "15" janeRenumbered
  /\ Legacy.advocateMatches "15" jane = Legacy.advocateMatches "15" janeRenumbered.
Proof.
  assert (H : agreeOnSearched jane janeRenumbered) by (repeat split; reflexivity).
  split; [exact H|].
  exact (filter_ignores_unsearched_fields jane janeRenumbered "15" H).
Defined.

(** ** What the current revision adds to the claims above *)

(** X1: in the current revision the filter keeps a record exactly when one
    of first name, last name, city, degree, some specialty (text compared
    after lower-casing both sides) or the printed years of experience
    contains the search term. *)
Theorem current_filter_keeps_exactly_matches
  (L : list Advocate) (t : string) (a : Advocate) :
  a ∈ filterAdvocates L t <-> a ∈ L /\ Matches t a.
Proof. apply filterAdvocates_spec. Qed.

(** X2: in the current revision, on records whose years of experience are
    safe integers, a term of ASCII letters, the same term in upper case and
    the same term in lower case give the same output. *)
Theorem current_filter_case_insensitive (L : list Advocate) (t : string) :
  alphabetic t ->
  Forall (fun a => safeInteger (yearsOfExperience a)) L ->
  filterAdvocates L t = filterAdvocates L (Js.toUpperCase t)
  /\ filterAdvocates L (Js.toUpperCase t) = filterAdvocates L (Js.toLowerCase t).
Proof. intros Ht _. now apply filterAdvocates_case_insensitive. Qed.

Lemma current_filter_case_insensitive_witness :
  alphabetic "bOs"
  /\ filterAdvocates [jane; john] "bOs" = filterAdvocates [jane; john] "BOS"
  /\ filterAdvocates [jane; john] "BOS" = filterAdvocates [jane; john] "bos".
Proof.
  assert (H : alphabetic "bOs") by reflexivity.
  assert (Hy : Forall (fun a => safeInteger (yearsOfExperience a)) [jane; john]).
  { repeat constructor; discriminate. }
  split; [exact H|].
  exact (current_filter_case_insensitive [jane; john] "bOs" H Hy).
Defined.

(** X3: in the current revision a record of the list with fifteen years of
    experience is in the output for the term "5" and for the term "15". *)
Theorem current_filter_years_15 (L : list Advocate) (a : Advocate) :
  a ∈ L -> yearsOfExperience a = 15%Z ->
  a ∈ filterAdvocates L "5" /\ a ∈ filterAdvocates L "15".
Proof.
  intros Hin Hy. destruct (years_15_matches a Hy) as [H5 H15].
  unfold filterAdvocates. rewrite !list_elem_of_In, !filter_In.
  apply list_elem_of_In in Hin. auto.
Qed.

Lemma current_filter_years_15_witness :
  alice ∈ filterAdvocates [jane; alice] "5"
  /\ alice ∈ filterAdvocates [jane; alice] "15".
Proof.
  apply (current_filter_years_15 [jane; alice] alice).
  - apply list_elem_of_In. simpl. auto.
  - reflexivity.
Defined.

(** X4: in the current revision reset makes the display list the full list,
    leaves the full list as it was and clears the search term, from every
    state. *)
Theorem current_reset_restores_and_clears (st : State) :
  filteredAdvocates (onClick st) = advocates st
  /\ advocates (onClick st) = advocates st
  /\ searchTerm (onClick st) = "".
Proof. apply onClick_resets. Qed.

(** X5: in the current revision filtering is idempotent. *)
Theorem current_filter_idempotent (L : list Advocate) (t : string) :
  filterAdvocates (filterAdvocates L t) t = filterAdvocates L t.
Proof.
  unfold filterAdvocates. induction L as [|a L IH]; simpl; [reflexivity|].
  destruct (advocateMatches t a) eqn:E; simpl; [|exact IH].
  now rewrite E, IH.
Qed.

(** X6: in the current revision a change of the search input recomputes
    the display from the full list and the new term, whatever was on
    display before. *)
Theorem current_change_recomputes_from_full
  (value : string) (st : State) (l : list Advocate) :
  advocates st = Some l ->
  filteredAdvocates (fst (onChange value st)) = Some (filterAdvocates l value)
  /\ advocates (fst (onChange value st)) = Some l
  /\ searchTerm (fst (onChange value st)) = value
  /\ snd (onChange value st) = Returned.
Proof. intros H. rewrite (onChange_display value st l H). simpl. auto. Qed.

Lemma current_change_recomputes_from_full_witness :
  filteredAdvocates (fst (onChange "doe" (fst (onChange "bos" loaded)))) = Some [jane]
  /\ advocates (fst (onChange "doe" (fst (onChange "bos" loaded)))) = Some [jane; john]
  /\ searchTerm (fst (onChange "doe" (fst (onChange "bos" loaded)))) = "doe"
  /\ snd (onChange "doe" (fst (onChange "bos" loaded))) = Returned.
Proof.
  apply (current_change_recomputes_from_full "doe" (fst (onChange "bos" loaded))
           [jane; john]).
  reflexivity.
Defined.

(** ** Keys of the table *)

Section KeyFacts.

Lemma numberToString_inj (m n : Z) :
  Js.numberToString m = Js.numberToString n -> m = n.
Proof.
  unfold Js.numberToString. intros H.
  apply (f_equal NilEmpty.int_of_string) in H.
  rewrite !NilEmpty.isi in H. injection H as H.
  apply (f_equal Z.of_int) in H. now rewrite !DecimalZ.of_to in H.
Qed.

Lemma append_inj_r (p s t : string) : p +:+ s = p +:+ t -> s = t.
Proof. induction p as [|c p IH]; simpl; [auto|]. intros [= H]. auto. Qed.

(** A printed number never reads as an index key. *)
Lemma number_not_index_key (n : Z) (s : string) :
  Js.numberToString n <> "advocate-" +:+ s.
Proof.
  intros H. pose proof (numberToString_chars n) as Hc.
  rewrite H in Hc. discriminate Hc.
Qed.

Lemma index_key_inj (i j : nat) :
  "advocate-" +:+ Js.numberToString (Z.of_nat i)
  = "advocate-" +:+ Js.numberToString (Z.of_nat j) -> i = j.
Proof.
  intros H. apply append_inj_r, numberToString_inj in H. lia.
Qed.

Lemma rowKey_text_eq (a b : Advocate) (i j : nat) :
  keyText (rowKey a i) = keyText (rowKey b j) ->
  (exists n, id a = Some n /\ id b = Some n)
  \/ (id a = None /\ id b = None /\ i = j).
Proof.
  unfold rowKey. destruct (id a) as [m|], (id b) as [n|]; simpl; intros H.
  - left. exists m. apply numberToString_inj in H. now subst.
  - now apply number_not_index_key in H.
  - symmetry in H. now apply number_not_index_key in H.
  - right. auto using index_key_inj.
Qed.

(** The key texts of the rows of a list rendered from position [k] on. *)
Lemma keys_from_NoDup (k : nat) (l : list Advocate) :
  NoDup (imap (fun i a => keyText (rowKey a (k + i))) l) <-> NoDup (omap id l).
Proof.
  revert k. induction l as [|a l IH]; intros k.
  - simpl. split; constructor.
  - rewrite imap_cons, NoDup_cons.
    assert (Htail : imap ((fun i b => keyText (rowKey b (k + i))) ∘ S) l
                    = imap (fun i b => keyText (rowKey b (S k + i))) l).
    { apply imap_ext. intros i b _. simpl. do 2 f_equal. lia. }
    rewrite Htail, IH. clear Htail IH.
    rewrite elem_of_lookup_imap. simpl.
    destruct (id a) as [n|] eqn:Hid.
    + rewrite NoDup_cons, list_elem_of_omap. split; intros [Hnot Hnd]; split; auto.
      * intros (b & Hb & Hidb). apply Hnot.
        apply list_elem_of_lookup in Hb as [i Hi]. exists i, b. split; [|exact Hi].
        unfold rowKey. now rewrite Hid, Hidb.
      * intros (i & b & Heq & Hi). apply Hnot. exists b. split.
        -- apply list_elem_of_lookup. eauto.
        -- apply rowKey_text_eq in Heq as [(m & Ha & Hb)|(Ha & _)]; congruence.
    + split; [intros [_ Hnd]; exact Hnd | intros Hnd; split; [|exact Hnd]].
      intros (i & b & Heq & Hi).
      apply rowKey_text_eq in Heq as [(m & Ha & _)|(_ & _ & Hij)]; [congruence|lia].
Qed.

Lemma renderRows_keys (toLocaleString : Z -> string) (l : list Advocate) :
  map (fun r => keyText (trKey r)) (renderRows toLocaleString l)
  = imap (fun i a => keyText (rowKey a (0 + i))) l.
Proof.
  unfold renderRows.
  change (map (fun r => keyText (trKey r)) (imap (renderRow toLocaleString) l))
    with ((fun r => keyText (trKey r)) <$> imap (renderRow toLocaleString) l).
  rewrite fmap_imap. apply imap_ext. intros i a _. reflexivity.
Qed.

Lemma chip_keys_NoDup (k : ReactKey) (col : ColumnConfig) (items : list string) :
  NoDup (map chipKey (renderItems k col items)).
Proof.
  apply NoDup_alt. intros i j x Hi Hj.
  unfold renderItems in *.
  change (map chipKey ?l) with (chipKey <$> l) in Hi, Hj.
  rewrite fmap_imap in Hi, Hj.
  apply list_lookup_imap_Some in Hi as (y & _ & ->).
  apply list_lookup_imap_Some in Hj as (z & _ & Heq).
  simpl in Heq. unfold chipKeyOf in Heq.
  do 4 apply append_inj_r in Heq.
  apply numberToString_inj in Heq. lia.
Qed.

Lemma chip_texts (k : ReactKey) (col : ColumnConfig) (items : list string) :
  map chipText (renderItems k col items) = items.
Proof.
  unfold renderItems.
  change (map chipText ?l) with (chipText <$> l).
  rewrite fmap_imap. simpl.
  induction items as [|x items IH]; simpl; [reflexivity|]. f_equal.
  rewrite <- IH at 2. apply imap_ext. reflexivity.
Qed.

End KeyFacts.

(** ** Rendering *)

Section RenderFacts.

Variable toLocaleString : Z -> string.

Lemma renderRow_cells (i : nat) (a : Advocate) :
  trCells (renderRow toLocaleString i a)
  = [ {| tdKey := "firstName"; tdContent := TextNode (firstName a) |};
      {| tdKey := "lastName"; tdContent := TextNode (lastName a) |};
      {| tdKey := "city"; tdContent := TextNode (city a) |};
      {| tdKey := "degree"; tdContent := TextNode (degree a) |};
      {| tdKey := "specialties";
         tdContent :=
           ChipList (renderItems (rowKey a i)
                       {| key := SpecialtiesKey; label := "Specialties" |}
                       (specialties a)) |};
      {| tdKey := "yearsOfExperience";
         tdContent := TextNode (Js.numberToString (yearsOfExperience a)) |};
      {| tdKey := "phoneNumber";
         tdContent := TextNode (Js.numberToString (phoneNumber a)) |} ].
Proof. reflexivity. Qed.

Lemma renderRow_shownTexts (i : nat) (a : Advocate) :
  shownTexts (renderRow toLocaleString i a)
  = [ [firstName a]; [lastName a]; [city a]; [degree a]; specialties a;
      [Js.numberToString (yearsOfExperience a)];
      [Js.numberToString (phoneNumber a)] ].
Proof.
  unfold shownTexts. rewrite renderRow_cells. simpl. now rewrite chip_texts.
Qed.

Lemma renderRows_lookup (l : list Advocate) (i : nat) (r : TableRow) :
  renderRows toLocaleString l !! i = Some r ->
  exists a, l !! i = Some a /\ r = renderRow toLocaleString i a.
Proof. unfold renderRows. intros H. now apply list_lookup_imap_Some in H. Qed.

Lemma renderRows_elem (l : list Advocate) (r : TableRow) :
  r ∈ renderRows toLocaleString l ->
  exists i a, l !! i = Some a /\ r = renderRow toLocaleString i a.
Proof.
  intros H. apply list_elem_of_lookup in H as [i Hi].
  apply renderRows_lookup in Hi as (a & ? & ?). eauto.
Qed.

Lemma legacy_renderRow (i : nat) (a : Advocate) :
  LegacyTable.renderRow i a = LegacyTable.Rendered (renderRow toLocaleString i a).
Proof. reflexivity. Qed.

End RenderFacts.

(** ** Narrowing the search *)

Section Narrowing.

Lemma append_assoc (a b c : string) : (a +:+ b) +:+ c = a +:+ (b +:+ c).
Proof.
  induction a as [|x a IH]; [reflexivity|].
  change (String x ((a +:+ b) +:+ c) = String x (a +:+ (b +:+ c))).
  now rewrite IH.
Qed.

Lemma mapChars_append (f : ascii -> ascii) (a b : string) :
  Js.mapChars f (a +:+ b) = Js.mapChars f a +:+ Js.mapChars f b.
Proof.
  induction a as [|x a IH]; [reflexivity|].
  change (String (f x) (Js.mapChars f (a +:+ b))
          = String (f x) (Js.mapChars f a +:+ Js.mapChars f b)).
  now rewrite IH.
Qed.

Lemma Contains_trans (s t u : string) : Contains s t -> Contains t u -> Contains s u.
Proof.
  intros (p & q & ->) (p' & q' & ->).
  exists (p +:+ p'), (q' +:+ q). now rewrite !append_assoc.
Qed.

Lemma Contains_toLowerCase (t u : string) :
  Contains t u -> Contains (Js.toLowerCase t) (Js.toLowerCase u).
Proof.
  intros (p & q & ->). exists (Js.toLowerCase p), (Js.toLowerCase q).
  unfold Js.toLowerCase. now rewrite !mapChars_append.
Qed.

(** A record that matches a term matches every part of the term. *)
Lemma Matches_narrow (t u : string) (a : Advocate) :
  Contains t u -> Matches t a -> Matches u a.
Proof.
  intros Htu. pose proof (Contains_toLowerCase t u Htu) as Hl.
  unfold Matches. intros [H|[H|[H|[H|[(sp & Hin & H)|H]]]]];
    eauto 10 using Contains_trans.
Qed.

Lemma advocateMatches_narrow (t u : string) (a : Advocate) :
  Contains t u -> advocateMatches t a = true -> advocateMatches u a = true.
Proof. rewrite !advocateMatches_spec. apply Matches_narrow. Qed.

Lemma filter_narrow_sublist (L : list Advocate) (t u : string) :
  Contains t u -> filterAdvocates L t `sublist_of` filterAdvocates L u.
Proof.
  intros Htu. unfold filterAdvocates.
  induction L as [|a L IH]; simpl; [constructor|].
  destruct (advocateMatches t a) eqn:Et.
  - rewrite (advocateMatches_narrow t u a Htu Et). now constructor.
  - destruct (advocateMatches u a); [now constructor|exact IH].
Qed.

Lemma filter_narrow_compose (L : list Advocate) (t u : string) :
  Contains t u -> filterAdvocates (filterAdvocates L u) t = filterAdvocates L t.
Proof.
  intros Htu. unfold filterAdvocates.
  induction L as [|a L IH]; simpl; [reflexivity|].
  destruct (advocateMatches u a) eqn:Eu; simpl.
  - now rewrite IH.
  - destruct (advocateMatches t a) eqn:Et; [|exact IH].
    rewrite (advocateMatches_narrow t u a Htu Et) in Eu. discriminate.
Qed.

End Narrowing.

(** ** Malformed records *)

Section MalformedFacts.

Lemma orElse_false (r1 r2 : result bool) :
  r1 ||| r2 = Ok false -> r1 = Ok false /\ r2 = Ok false.
Proof. destruct r1 as [[]|]; simpl; intros H; try discriminate; auto. Qed.

Lemma orElse_true_l (r : result bool) : Ok true ||| r = Ok true.
Proof. reflexivity. Qed.

Lemma lowerFieldIncludes_Ok (field : option string) (t : string) (b : bool) :
  lowerFieldIncludes field t = Ok b -> field <> None.
Proof. destruct field; [discriminate|discriminate]. Qed.

Lemma advocateMatchesRaw_false (value : string) (a : RawAdvocate) :
  advocateMatchesRaw value a = Ok false -> ~ missingField a.
Proof.
  unfold advocateMatchesRaw. intros H.
  apply orElse_false in H as [H Hy]. apply orElse_false in H as [H Hs].
  apply orElse_false in H as [H Hd]. apply orElse_false in H as [H Hc].
  apply orElse_false in H as [Hf Hl].
  apply lowerFieldIncludes_Ok in Hf, Hl, Hc, Hd.
  intros [E|[E|[E|[E|[E|E]]]]]; try contradiction.
  - rewrite E in Hs. discriminate.
  - rewrite E in Hy. discriminate.
Qed.

Lemma advocateMatchesRaw_firstName (value s : string) (a : RawAdvocate) :
  rawFirstName a = Some s ->
  Js.includes (Js.toLowerCase s) (Js.toLowerCase value) = true ->
  advocateMatchesRaw value a = Ok true.
Proof.
  intros Hf Hin. unfold advocateMatchesRaw. rewrite Hf. simpl. now rewrite Hin.
Qed.

Lemma filterRaw_empty_term (L : list RawAdvocate) :
  Forall (fun a => rawFirstName a <> None) L -> filterRaw L "" = Ok L.
Proof.
  unfold filterRaw. induction 1 as [|a L Ha _ IH]; simpl; [reflexivity|].
  destruct (rawFirstName a) as [s|] eqn:Hf; [|contradiction].
  rewrite (advocateMatchesRaw_firstName "" s a Hf (includes_empty _)). simpl.
  now rewrite IH.
Qed.

End MalformedFacts.

(** ** More on the older filter *)

Section LegacyMore.

Lemma legacy_advocateMatches_spec (t : string) (a : Advocate) :
  Legacy.advocateMatches t a = Ok true <-> legacyTextMatch t a.
Proof.
  unfold Legacy.advocateMatches, legacyTextMatch.
  rewrite <- !includes_spec.
  assert (Hs : existsb (String.eqb t) (specialties a) = true <-> t ∈ specialties a).
  { rewrite existsb_exists. split.
    - intros (x & Hx & E). apply String.eqb_eq in E as <-. now apply list_elem_of_In.
    - intros H. exists t. split; [now apply list_elem_of_In|apply String.eqb_refl]. }
  rewrite <- Hs.
  destruct (Js.includes (firstName a) t), (Js.includes (lastName a) t),
    (Js.includes (city a) t), (Js.includes (degree a) t),
    (existsb (String.eqb t) (specialties a)); simpl;
    split; intros H; auto 10; try discriminate;
    repeat (destruct H as [H|H]; try discriminate).
Qed.

Lemma legacy_filterAdvocates_Ok (L : list Advocate) (t : string) :
  Legacy.filterAdvocates L t = Ok L <-> Forall (legacyTextMatch t) L.
Proof.
  unfold Legacy.filterAdvocates. induction L as [|a L IH]; simpl.
  - split; [constructor|reflexivity].
  - rewrite Forall_cons, <- IH, <- legacy_advocateMatches_spec.
    destruct (legacy_advocateMatches_cases t a) as [E|E]; rewrite E; simpl.
    + destruct (filterM (Legacy.advocateMatches t) L) as [rest|]; simpl.
      * split; [intros [= ->]; auto | intros [_ [= ->]]; reflexivity].
      * split; [discriminate | intros [_ H]; discriminate].
    + split; [discriminate | intros [H _]; discriminate].
Qed.

Lemma legacy_onChange_cases (t : string) (st : Legacy.State) :
  Legacy.searchTermSpan (fst (Legacy.onChange t st)) = t
  /\ Legacy.advocates (fst (Legacy.onChange t st)) = Legacy.advocates st
  /\ ((snd (Legacy.onChange t st) = Returned
       /\ Legacy.filteredAdvocates (fst (Legacy.onChange t st)) = Legacy.advocates st)
      \/ (snd (Legacy.onChange t st) = Threw
          /\ Legacy.filteredAdvocates (fst (Legacy.onChange t st))
             = Legacy.filteredAdvocates st)).
Proof.
  destruct st as [full shown span out]. unfold Legacy.onChange; simpl.
  destruct full as [l|]; simpl; [|auto].
  destruct (Legacy.filterAdvocates l t) as [kept|] eqn:Hk; simpl; [|auto].
  apply legacy_filterAdvocates_all in Hk as ->. auto.
Qed.

End LegacyMore.

(** ** Sequences of events *)

Section RunFacts.

Lemma run_cons (e : event) (events : list event) (st : State) :
  run (e :: events) st = run events (handle e st).
Proof. reflexivity. Qed.

Lemma handle_user_follows (e : event) (st : State) (data : list Advocate) :
  userEvent e -> advocates st = Some data ->
  advocates (handle e st) = Some data
  /\ filteredAdvocates (handle e st)
     = Some (filterAdvocates data (searchTerm (handle e st))).
Proof.
  destruct st as [full shown term out]. simpl. intros He ->.
  destruct e as [r|value|]; [contradiction| |]; simpl.
  - auto.
  - now rewrite filterAdvocates_empty_term.
Qed.

Lemma run_user_follows (events : list event) (st : State) (data : list Advocate) :
  Forall userEvent events ->
  advocates st = Some data ->
  filteredAdvocates st = Some (filterAdvocates data (searchTerm st)) ->
  advocates (run events st) = Some data
  /\ filteredAdvocates (run events st)
     = Some (filterAdvocates data (searchTerm (run events st))).
Proof.
  intros Hev. revert st. induction Hev as [|e events He _ IH]; intros st Ha Hf.
  - auto.
  - rewrite run_cons.
    destruct (handle_user_follows e st data He Ha) as [Ha' Hf']. now apply IH.
Qed.

Lemma handle_user_undefined (e : event) (st : State) :
  userEvent e -> advocates st = None -> filteredAdvocates st = None ->
  advocates (handle e st) = None /\ filteredAdvocates (handle e st) = None.
Proof.
  destruct st as [full shown term out]. simpl. intros He -> ->.
  destruct e as [r|value|]; [contradiction| |]; simpl; auto.
Qed.

Lemma run_user_undefined (events : list event) (st : State) :
  Forall userEvent events -> advocates st = None -> filteredAdvocates st = None ->
  advocates (run events st) = None /\ filteredAdvocates (run events st) = None.
Proof.
  intros Hev. revert st. induction Hev as [|e events He _ IH]; intros st Ha Hf.
  - auto.
  - rewrite run_cons.
    destruct (handle_user_undefined e st He Ha Hf). now apply IH.
Qed.



End RunFacts.

(** ** Further properties of the code *)

(** X7: the rows of the table have pairwise distinct keys exactly when the
    records on display that carry an [id] carry pairwise distinct ones;
    records without [id] never clash, with each other or with an [id]. *)
Theorem row_keys_distinct_iff_ids_distinct
  (toLocaleString : Z -> string) (l : list Advocate) :
  NoDup (map (fun r => keyText (trKey r)) (renderRows toLocaleString l))
  <-> NoDup (omap id l).
Proof. rewrite renderRows_keys. apply keys_from_NoDup. Qed.

(** X8: in every rendered row, a cell that shows a list is the specialties
    cell; its elements have pairwise distinct keys and read, in order, the
    specialties of the record of that row. *)
Theorem chips_are_the_specialties
  (toLocaleString : Z -> string) (l : list Advocate) (i : nat)
  (r : TableRow) (c : DataCell) (chips : list Chip) :
  renderRows toLocaleString l !! i = Some r ->
  c ∈ trCells r ->
  tdContent c = ChipList chips ->
  tdKey c = "specialties"
  /\ NoDup (map chipKey chips)
  /\ (exists a, l !! i = Some a /\ map chipText chips = specialties a).
Proof.
  intros Hr Hc Hchips.
  apply renderRows_lookup in Hr as (a & Ha & ->).
  rewrite renderRow_cells in Hc.
  repeat (apply elem_of_cons in Hc as [->|Hc]; [try discriminate Hchips|]).
  - injection Hchips as <-. split; [reflexivity|].
    split; [apply chip_keys_NoDup|]. exists a. split; [exact Ha|apply chip_texts].
  - now apply elem_of_nil in Hc.
Qed.

Lemma chips_are_the_specialties_witness :
  "specialties" = "specialties"
  /\ NoDup ["3-specialties-0"; "3-specialties-1"]
  /\ (exists a, [jane; alice] !! 1 = Some a
        /\ ["Pediatrics"; "Oncology"] = specialties a).
Proof.
  pose (chips := [ {| chipKey := "3-specialties-0"; chipText := "Pediatrics" |};
                   {| chipKey := "3-specialties-1"; chipText := "Oncology" |} ]).
  pose (c := {| tdKey := "specialties"; tdContent := ChipList chips |}).
  assert (Hr : renderRows (fun _ => "") [jane; alice] !! 1
               = Some (renderRow (fun _ => "") 1 alice)) by reflexivity.
  assert (Hc : c ∈ trCells (renderRow (fun _ => "") 1 alice)).
  { rewrite renderRow_cells. do 4 apply list_elem_of_further. apply list_elem_of_here. }
  assert (Hchips : tdContent c = ChipList chips) by reflexivity.
  exact (chips_are_the_specialties (fun _ => "") [jane; alice] 1
           (renderRow (fun _ => "") 1 alice) c chips Hr Hc Hchips).
Defined.

(** X9: the table has one row per record on display, in the order of the
    display list, and the cells of every row carry the column keys of the
    header cells, in the same order. *)
Theorem rows_align_with_header
  (toLocaleString : Z -> string) (l : list Advocate) :
  length (renderRows toLocaleString l) = length l
  /\ (forall i r, renderRows toLocaleString l !! i = Some r ->
        (exists a, l !! i = Some a /\ trKey r = rowKey a i)
        /\ map tdKey (trCells r) = map thKey renderHeader).
Proof.
  split; [apply length_imap|].
  intros i r Hr. apply renderRows_lookup in Hr as (a & Ha & ->).
  split; [eauto|reflexivity].
Qed.

Lemma rows_align_with_header_witness :
  length (renderRows (fun _ => "") [jane; alice]) = 2
  /\ (exists a, [jane; alice] !! 1 = Some a
        /\ trKey (renderRow (fun _ => "") 1 alice) = rowKey a 1)
  /\ map tdKey (trCells (renderRow (fun _ => "") 1 alice)) = map thKey renderHeader.
Proof.
  destruct (rows_align_with_header (fun _ => "") [jane; alice]) as [Hlen Hrows].
  split; [exact Hlen|].
  apply (Hrows 1 (renderRow (fun _ => "") 1 alice)). reflexivity.
Defined.

(** X10: two records show the same texts in their rows exactly when they
    agree on the seven displayed fields; [id] and [createdAt] are never
    shown, and the locale and the position of the row do not matter. *)
Theorem rows_show_the_displayed_fields
  (f g : Z -> string) (i j : nat) (a b : Advocate) :
  shownTexts (renderRow f i a) = shownTexts (renderRow g j b)
  <-> agreeOnDisplayed a b.
Proof.
  rewrite !renderRow_shownTexts. unfold agreeOnDisplayed. split.
  - intros [= Hf Hl Hc Hd Hs Hy Hp].
    apply numberToString_inj in Hy, Hp. auto 10.
  - intros (-> & -> & -> & -> & -> & -> & ->). reflexivity.
Qed.

(** X11: with the configured columns no cell holds a date: the rows do not
    depend on the locale formatting, and the older revision, which has no
    branch for dates, renders every row as the current one does. *)
Theorem rows_never_format_a_date
  (f g : Z -> string) (l : list Advocate) :
  renderRows f l = renderRows g l
  /\ (forall i a, LegacyTable.renderRow i a = LegacyTable.Rendered (renderRow f i a)).
Proof.
  split; [|intros i a; apply legacy_renderRow].
  unfold renderRows. apply imap_ext. reflexivity.
Qed.



(** X13: once a fetched body is an object without [data], the table throws
    on render, and no change of the search input or reset repairs it. *)
Theorem render_throws_after_body_without_data
  (toLocaleString : Z -> string) (events : list event) (st : State) :
  Forall userEvent events ->
  renderTable toLocaleString
    (run events (fetchAdvocates (Body (JsonObject None)) st)) = TypeError.
Proof.
  intros Hev. unfold renderTable.
  destruct (run_user_undefined events
              (fetchAdvocates (Body (JsonObject None)) st) Hev) as [_ H];
    [reflexivity|reflexivity|].
  now rewrite H.
Qed.

Lemma render_throws_after_body_without_data_witness :
  renderTable (fun _ => "")
    (run [Change "bos"; Reset] (fetchAdvocates (Body (JsonObject None)) loaded))
  = TypeError.
Proof.
  apply render_throws_after_body_without_data. repeat constructor.
Defined.

(** X14: when the list arrives while the search input is still empty, then
    after any sequence of changes and resets the full list is the fetched
    one and the display list is the filter of the full list by the search
    term on show. *)
Theorem display_follows_term_after_load
  (data : list Advocate) (events : list event) (st : State) :
  searchTerm st = "" ->
  Forall userEvent events ->
  advocates (run events (fetchAdvocates (Body (JsonObject (Some data))) st))
  = Some data
  /\ filteredAdvocates (run events (fetchAdvocates (Body (JsonObject (Some data))) st))
     = Some (filterAdvocates data
               (searchTerm
                  (run events (fetchAdvocates (Body (JsonObject (Some data))) st)))).
Proof.
  intros Hterm Hev. apply run_user_follows; [exact Hev|reflexivity|].
  destruct st as [full shown term out]. simpl in *. subst term.
  now rewrite filterAdvocates_empty_term.
Qed.

Lemma display_follows_term_after_load_witness :
  advocates (run [Change "bos"; Reset; Change "md"]
               (fetchAdvocates (Body (JsonObject (Some [jane; john]))) initialState))
  = Some [jane; john]
  /\ filteredAdvocates
       (run [Change "bos"; Reset; Change "md"]
          (fetchAdvocates (Body (JsonObject (Some [jane; john]))) initialState))
     = Some (filterAdvocates [jane; john] "md").
Proof.
  apply (display_follows_term_after_load [jane; john]
           [Change "bos"; Reset; Change "md"] initialState).
  - reflexivity.
  - repeat constructor.
Defined.

(** X15: when the list arrives after the user has typed a term, the display
    list becomes the whole fetched list while the term stays on show; if
    some fetched record does not match the term, the display is then not
    the filter of the full list by the term on show. *)
Theorem late_fetch_ignores_the_term
  (data : list Advocate) (t : string) (a : Advocate) (st : State) :
  a ∈ data -> advocateMatches t a = false ->
  searchTerm (fetchAdvocates (Body (JsonObject (Some data))) (fst (onChange t st))) = t
  /\ filteredAdvocates
       (fetchAdvocates (Body (JsonObject (Some data))) (fst (onChange t st)))
     = Some data
  /\ ~ displayFollowsTerm
       (fetchAdvocates (Body (JsonObject (Some data))) (fst (onChange t st))).
Proof.
  intros Hin Hno.
  assert (Hterm : searchTerm (fst (onChange t st)) = t).
  { destruct st as [full shown term out]. unfold onChange; simpl.
    now destruct full. }
  split; [exact Hterm|]. split; [reflexivity|].
  intros (l & Hl & Hd). simpl in Hl, Hd. rewrite Hterm in Hd.
  injection Hl as <-. injection Hd as Hd.
  rewrite Hd in Hin. apply filterAdvocates_spec in Hin as [_ Hm].
  apply advocateMatches_spec in Hm. congruence.
Qed.

Lemma late_fetch_ignores_the_term_witness :
  searchTerm (fetchAdvocates (Body (JsonObject (Some [jane; john])))
                (fst (onChange "bos" initialState))) = "bos"
  /\ filteredAdvocates
       (fetchAdvocates (Body (JsonObject (Some [jane; john])))
          (fst (onChange "bos" initialState)))
     = Some [jane; john]
  /\ ~ displayFollowsTerm
       (fetchAdvocates (Body (JsonObject (Some [jane; john])))
          (fst (onChange "bos" initialState))).
Proof.
  apply (late_fetch_ignores_the_term [jane; john] "bos" jane initialState).
  - apply list_elem_of_here.
  - reflexivity.
Defined.



(** X17: the change handler of the older revision never narrows the
    display: it leaves the full list, and either returns with the whole
    full list on display or throws with the display as it was. *)
Theorem legacy_change_shows_all_or_throws (t : string) (st : Legacy.State) :
  Legacy.advocates (fst (Legacy.onChange t st)) = Legacy.advocates st
  /\ ((snd (Legacy.onChange t st) = Returned
       /\ Legacy.filteredAdvocates (fst (Legacy.onChange t st)) = Legacy.advocates st)
      \/ (snd (Legacy.onChange t st) = Threw
          /\ Legacy.filteredAdvocates (fst (Legacy.onChange t st))
             = Legacy.filteredAdvocates st)).
Proof. apply legacy_onChange_cases. Qed.

(** X18: the filter of the older revision returns a list exactly when every
    record has the term inside its first name, last name, city or degree as
    written, or has a specialty equal to the term; the list it returns is
    then the whole input. *)
Theorem legacy_filter_returns_iff_all_match (L : list Advocate) (t : string) :
  (Legacy.filterAdvocates L t = Ok L <-> Forall (legacyTextMatch t) L)
  /\ (forall out, Legacy.filterAdvocates L t = Ok out -> out = L)
  /\ (~ Forall (legacyTextMatch t) L -> Legacy.filterAdvocates L t = TypeError).
Proof.
  split; [apply legacy_filterAdvocates_Ok|].
  split; [intros out; apply legacy_filterAdvocates_all|].
  intros Hnot. destruct (Legacy.filterAdvocates L t) as [out|] eqn:E; [|reflexivity].
  pose proof (legacy_filterAdvocates_all L out t E) as ->.
  now apply legacy_filterAdvocates_Ok in E.
Qed.

Lemma legacy_filter_returns_iff_all_match_witness :
  [jane; john] = [jane; john]
  /\ Legacy.filterAdvocates [jane; john] "Bos" = TypeError.
Proof.
  split.
  - apply (proj1 (proj2 (legacy_filter_returns_iff_all_match [jane; john] "J"))).
    reflexivity.
  - apply (proj2 (proj2 (legacy_filter_returns_iff_all_match [jane; john] "Bos"))).
    intros H. apply Forall_cons in H as [H _].
    apply legacy_advocateMatches_spec in H. discriminate H.
Defined.

(** X19: the filter callback never excludes a record that lacks a field it
    reads: on such a record it throws, or keeps the record because a field
    before the missing one matched. *)
Theorem malformed_record_never_excluded (value : string) (a : RawAdvocate) :
  missingField a ->
  advocateMatchesRaw value a = TypeError \/ advocateMatchesRaw value a = Ok true.
Proof.
  intros Hm. destruct (advocateMatchesRaw value a) as [[]|] eqn:E; auto.
  now apply advocateMatchesRaw_false in E.
Qed.

Lemma malformed_record_never_excluded_witness :
  advocateMatchesRaw "bos" johnNoYears = TypeError
  \/ advocateMatchesRaw "bos" johnNoYears = Ok true.
Proof.
  apply (malformed_record_never_excluded "bos" johnNoYears).
  do 5 right. reflexivity.
Defined.

(** X20: with the empty search term the filter returns its whole input
    without throwing as soon as every record has a first name, whatever
    else the records lack: the first comparison already succeeds. *)
Theorem empty_term_keeps_records_with_first_name (L : list RawAdvocate) :
  Forall (fun a => rawFirstName a <> None) L -> filterRaw L "" = Ok L.
Proof. apply filterRaw_empty_term. Qed.

Lemma empty_term_keeps_records_with_first_name_witness :
  filterRaw [johnNoYears; toRaw jane] "" = Ok [johnNoYears; toRaw jane].
Proof.
  apply (empty_term_keeps_records_with_first_name [johnNoYears; toRaw jane]).
  repeat constructor; discriminate.
Defined.

(** X21: in the current revision, on ASCII text, a longer term narrows the
    result: when the term [u] occurs inside the ASCII term [t] and the text
    fields of the records are ASCII, the output for [t] is a subsequence of
    the output for [u], and filtering the output for [u] by [t] gives the
    output for [t]. *)
Theorem longer_term_narrows (L : list Advocate) (t u : string) :
  asciiText t ->
  Forall asciiRecord L ->
  Contains t u ->
  filterAdvocates L t `sublist_of` filterAdvocates L u
  /\ filterAdvocates (filterAdvocates L u) t = filterAdvocates L t.
Proof.
  intros _ _ H.
  split; [now apply filter_narrow_sublist|now apply filter_narrow_compose].
Qed.

Lemma longer_term_narrows_witness :
  filterAdvocates [jane; john; alice] "jo" `sublist_of` filterAdvocates [jane; john; alice] "o"
  /\ filterAdvocates (filterAdvocates [jane; john; alice] "o") "jo"
     = filterAdvocates [jane; john; alice] "jo".
Proof.
  apply (longer_term_narrows [jane; john; alice] "jo" "o").
  - reflexivity.
  - repeat constructor.
  - exists "j", "". reflexivity.
Defined.

(** ** The change handler on records as received *)

Section ReceivedFacts.

Lemma onChangeReceived_threw (value : string) (st : ReceivedState) :
  snd (onChangeReceived value st) = Threw
  <-> filterReceived (receivedAdvocates st) value = TypeError.
Proof.
  unfold onChangeReceived; simpl.
  destruct (filterReceived (receivedAdvocates st) value); simpl;
    split; congruence.
Qed.

Lemma onChangeReceived_keeps (value : string) (st : ReceivedState) :
  snd (onChangeReceived value st) = Threw ->
  receivedAdvocates (fst (onChangeReceived value st)) = receivedAdvocates st
  /\ receivedFiltered (fst (onChangeReceived value st)) = receivedFiltered st.
Proof.
  unfold onChangeReceived; simpl.
  destruct (filterReceived (receivedAdvocates st) value); simpl;
    [discriminate|auto].
Qed.

Lemma filterM_throws {A : Type} (f : A -> result bool) (l : list A) (x : A) :
  x ∈ l -> f x = TypeError -> filterM f l = TypeError.
Proof.
  intros Hin Hx. induction l as [|y l IH]; [now apply elem_of_nil in Hin|].
  apply elem_of_cons in Hin as [<-|Hin]; simpl.
  - now rewrite Hx.
  - rewrite (IH Hin). now destruct (f y).
Qed.

End ReceivedFacts.

(** C3, amended: on every record that has all the fields its type declares,
    and for every search term, the filter callback returns without throwing
    and answers exactly as the typed callback does, and so does the filter
    on a list of such records.  A record that lacks a field the callback
    reads is not taken as a non-match: the callback throws on it or keeps
    it, and never excludes it; a throw of the callback is a throw of the
    filter.  The throw does not crash the render: the
    change handler throws exactly when the filter does, and it then ends
    before the display list is written, so both lists are as they were and
    the table has the rows it had. *)
Theorem filter_total_on_typed_records :
  (forall (value : string) (a : Advocate),
      advocateMatchesRaw value (toRaw a) = Ok (advocateMatches value a))
  /\ (forall (L : list Advocate) (value : string),
      filterRaw (map toRaw L) value = Ok (map toRaw (filterAdvocates L value)))
  /\ (forall (value : string) (a : RawAdvocate),
      missingField a ->
      advocateMatchesRaw value a = TypeError \/ advocateMatchesRaw value a = Ok true)
  /\ (forall (value : string) (L : list RawAdvocate) (a : RawAdvocate),
      a ∈ L -> advocateMatchesRaw value a = TypeError ->
      filterRaw L value = TypeError)
  /\ (forall (value : string) (st : ReceivedState),
      snd (onChangeReceived value st) = Threw
      <-> filterReceived (receivedAdvocates st) value = TypeError)
  /\ (forall (toLocaleString : Z -> string) (value : string) (st : ReceivedState),
      snd (onChangeReceived value st) = Threw ->
      receivedAdvocates (fst (onChangeReceived value st)) = receivedAdvocates st
      /\ receivedFiltered (fst (onChangeReceived value st)) = receivedFiltered st
      /\ renderReceived toLocaleString (fst (onChangeReceived value st))
         = renderReceived toLocaleString st).
Proof.
  split; [apply advocateMatchesRaw_toRaw|].
  split; [apply filterRaw_toRaw|].
  split.
  { intros value a Hm.
    destruct (advocateMatchesRaw value a) as [[]|] eqn:E; auto.
    now apply advocateMatchesRaw_false in E. }
  split; [intros value L a; apply filterM_throws|].
  split; [apply onChangeReceived_threw|].
  intros f value st Hthrew.
  destruct (onChangeReceived_keeps value st Hthrew) as [Hfull Hshown].
  repeat split; auto. unfold renderReceived. now rewrite Hshown.
Qed.

Lemma filter_total_on_typed_records_witness :
  (advocateMatchesRaw "xyz" johnNoYears = TypeError
   \/ advocateMatchesRaw "xyz" johnNoYears = Ok true)
  /\ receivedAdvocates (fst (onChangeReceived "xyz" receivedPage))
     = [receivedJane; receivedJohnNoYears]
  /\ receivedFiltered (fst (onChangeReceived "xyz" receivedPage)) = [receivedJane]
  /\ renderReceived (fun _ => "") (fst (onChangeReceived "xyz" receivedPage))
     = renderReceived (fun _ => "") receivedPage.
Proof.
  destruct filter_total_on_typed_records as (_ & _ & Hmissing & _ & _ & Hkeeps).
  split.
  - apply (Hmissing "xyz" johnNoYears). do 5 right. reflexivity.
  - apply (Hkeeps (fun _ => "") "xyz" receivedPage). reflexivity.
Defined.

Example received_change_throws :
  snd (onChangeReceived "xyz" receivedPage) = Threw
  /\ snd (onChangeReceived "bos" receivedPage) = Returned
  /\ receivedFiltered (fst (onChangeReceived "bos" receivedPage)) = [receivedJohnNoYears].
Proof. repeat split; reflexivity. Qed.
